(** * organism.h: encounters between organisms

    A shallow embedding of [organism.h]: the class template [Organism], the
    function template [encounter] and the variadic [encounter_series].

    - [vitality_t] is [uint64_t]: a [Z] in [0, 2^64), every addition written
      with its wrap-around.
    - The template parameters [can_eat_meat] and [can_eat_plants] are indices
      of the type [Organism], as in the source, so that the result tuple of
      [encounter] has the types the source gives it.
    - [species_t] is any type modelling [std::equality_comparable].
    - [static_assert] and [throw logic_error] are the two ways a call of
      [encounter] yields no tuple; both are constructors of [result]. *)

From Stdlib Require Import ZArith Bool List String Lia.
Import ListNotations.
Local Open Scope Z_scope.

(** ** Results of fallible calls *)

Inductive result (A : Type) : Type :=
| Ok (value : A)
| StaticAssertFailed
| LogicError (what : string).

Arguments Ok {A} value.
Arguments StaticAssertFailed {A}.
Arguments LogicError {A} what.

Definition bind {A B : Type} (r : result A) (k : A -> result B) : result B :=
  match r with
  | Ok x => k x
  | StaticAssertFailed => StaticAssertFailed
  | LogicError what => LogicError what
  end.

Notation "x <- r ;; k" := (bind r (fun x => k))
  (at level 61, r at next level, right associativity).

(** ** [std::equality_comparable]

    [equal_to] is [operator==].  The concept's semantic requirement is that
    [t == u] is true exactly when [t] equals [u]. *)

Class EqualityComparable (T : Type) : Type := {
  equal_to : T -> T -> bool;
  equal_to_spec : forall t u : T, equal_to t u = true <-> t = u
}.

#[export] Instance string_equality_comparable : EqualityComparable string :=
  {| equal_to := String.eqb; equal_to_spec := String.eqb_eq |}.

#[export] Instance uint64_equality_comparable : EqualityComparable Z :=
  {| equal_to := Z.eqb; equal_to_spec := Z.eqb_eq |}.

(** ** [vitality_t] *)

Definition vitality_t : Type := Z.

Definition two64 : Z := 2 ^ 64.

Definition is_uint64 (v : Z) : Prop := 0 <= v < two64.

(** Addition of two [uint64_t]. *)
Definition add64 (x y : vitality_t) : vitality_t := (x + y) mod two64.

(** The rules of [encounter], in the order the function tests them; the last
    one names the final [throw]. *)
Inductive rule : Type :=
| DeadParty
| Mating
| MutualInability
| MutualPredation
| SecondIsEatenPlant
| FirstIsEatenPlant
| FirstEatsSecond
| SecondEatsFirst
| IllegalState.

(** A rule is a guard and what the function returns when the guard holds. *)
Definition guarded (A : Type) : Type := (rule * bool * A)%type.

(** The first rule whose guard holds decides; [otherwise] when none does. *)
Fixpoint first_match {A : Type} (rules : list (guarded A))
  (otherwise : rule * A) : rule * A :=
  match rules with
  | [] => otherwise
  | (name, guard, outcome) :: rest =>
      if guard then (name, outcome) else first_match rest otherwise
  end.

Section Organisms.

Context {species_t : Type} `{EqualityComparable species_t}.

(** ** The class template [Organism] *)

Record Organism (can_eat_meat can_eat_plants : bool) : Type := mkOrganism {
  get_species : species_t;
  get_vitality : vitality_t
}.

Arguments mkOrganism {can_eat_meat can_eat_plants} _ _.
Arguments get_species {can_eat_meat can_eat_plants} _.
Arguments get_vitality {can_eat_meat can_eat_plants} _.

Definition Carnivore : Type := Organism true false.
Definition Omnivore : Type := Organism true true.
Definition Herbivore : Type := Organism false true.
Definition Plant : Type := Organism false false.

Section Methods.

Context {can_eat_meat can_eat_plants : bool}.
Implicit Type this : Organism can_eat_meat can_eat_plants.

Definition is_dead this : bool := get_vitality this =? 0.

Definition is_plant this : bool := negb can_eat_meat && negb can_eat_plants.

Definition set_vitality this (new_vitality : vitality_t)
  : Organism can_eat_meat can_eat_plants :=
  mkOrganism (get_species this) new_vitality.

Definition add_vitality this (change : vitality_t)
  : Organism can_eat_meat can_eat_plants :=
  set_vitality this (add64 (get_vitality this) change).

Definition kill this : Organism can_eat_meat can_eat_plants :=
  set_vitality this 0.

(** What can be seen of an organism: species, diet and vitality. *)
Definition snapshot this : species_t * bool * bool * vitality_t :=
  (get_species this, can_eat_meat, can_eat_plants, get_vitality this).

Definition well_formed this : Prop := is_uint64 (get_vitality this).

End Methods.

Definition can_eat {can_eat_meat can_eat_plants x y : bool}
  (this : Organism can_eat_meat can_eat_plants) (that : Organism x y) : bool :=
  if can_eat_meat && negb (is_plant that) then true
  else if can_eat_plants && is_plant that then true
  else false.

Definition are_species_equal
  {can_eat_meat can_eat_plants can_other_eat_meat can_other_eat_plants : bool}
  (this : Organism can_eat_meat can_eat_plants)
  (other : Organism can_other_eat_meat can_other_eat_plants) : bool :=
  equal_to (get_species this) (get_species other)
  && Bool.eqb can_eat_meat can_other_eat_meat
  && Bool.eqb can_eat_plants can_other_eat_plants.

(** ** [encounter] *)

Definition encounter_result (sp1_eats_m sp1_eats_p sp2_eats_m sp2_eats_p : bool)
  : Type :=
  (Organism sp1_eats_m sp1_eats_p * Organism sp2_eats_m sp2_eats_p
   * option (Organism sp1_eats_m sp1_eats_p))%type.

(** What a call yields: the tuple, or no tuple at all. *)
Definition encounter_outcome (sp1_eats_m sp1_eats_p sp2_eats_m sp2_eats_p : bool)
  : Type :=
  result (encounter_result sp1_eats_m sp1_eats_p sp2_eats_m sp2_eats_p).

Section Encounter.

Context {sp1_eats_m sp1_eats_p sp2_eats_m sp2_eats_p : bool}.
Variable organism1 : Organism sp1_eats_m sp1_eats_p.
Variable organism2 : Organism sp2_eats_m sp2_eats_p.

Definition nothing_happens
  : encounter_outcome sp1_eats_m sp1_eats_p sp2_eats_m sp2_eats_p :=
  Ok (organism1, organism2, None).

Definition encounter_rules
  : list (guarded (encounter_outcome sp1_eats_m sp1_eats_p sp2_eats_m sp2_eats_p)) :=
  [ (DeadParty,
     is_dead organism1 || is_dead organism2,
     nothing_happens);
    (Mating,
     are_species_equal organism1 organism2,
     Ok (organism1, organism2,
         Some (mkOrganism (get_species organism1)
                 (add64 (get_vitality organism1) (get_vitality organism2) / 2))));
    (MutualInability,
     negb (can_eat organism1 organism2) && negb (can_eat organism2 organism1),
     nothing_happens);
    (MutualPredation,
     (negb (is_plant organism1) && negb (is_plant organism2))
     && (can_eat organism1 organism2 && can_eat organism2 organism1),
     let organism1_dies := get_vitality organism2 >=? get_vitality organism1 in
     let organism2_dies := get_vitality organism1 >=? get_vitality organism2 in
     Ok (if organism1_dies then kill organism1
         else add_vitality organism1 (get_vitality organism2 / 2),
         if organism2_dies then kill organism2
         else add_vitality organism2 (get_vitality organism1 / 2),
         None));
    (SecondIsEatenPlant,
     is_plant organism2 && can_eat organism1 organism2,
     Ok (add_vitality organism1 (get_vitality organism2), kill organism2, None));
    (FirstIsEatenPlant,
     is_plant organism1 && can_eat organism2 organism1,
     Ok (kill organism1, add_vitality organism2 (get_vitality organism1), None));
    (FirstEatsSecond,
     can_eat organism1 organism2,
     if get_vitality organism2 >=? get_vitality organism1 then nothing_happens
     else Ok (add_vitality organism1 (get_vitality organism2 / 2),
              kill organism2, None));
    (SecondEatsFirst,
     can_eat organism2 organism1,
     if get_vitality organism1 >=? get_vitality organism2 then nothing_happens
     else Ok (kill organism1,
              add_vitality organism2 (get_vitality organism1 / 2), None)) ].

(** The rule that decides the call, with what the call yields. *)
Definition resolve
  : rule * encounter_outcome sp1_eats_m sp1_eats_p sp2_eats_m sp2_eats_p :=
  first_match encounter_rules (IllegalState, LogicError "Illegal state").

Definition fired_rule : rule := fst resolve.

Definition encounter
  : encounter_outcome sp1_eats_m sp1_eats_p sp2_eats_m sp2_eats_p :=
  if negb (negb (is_plant organism1) || negb (is_plant organism2))
  then StaticAssertFailed
  else snd resolve.

End Encounter.

(** ** [encounter_series] *)

(** An element of the parameter pack [Args...]: an organism of any diet. *)
Inductive Arg : Type :=
| arg (sp2_eats_m sp2_eats_p : bool)
      (organism2 : Organism sp2_eats_m sp2_eats_p).

Definition get0 {A B C : Type} (t : A * B * C) : A := fst (fst t).

Fixpoint encounter_series {sp1_eats_m sp1_eats_p : bool}
  (organism1 : Organism sp1_eats_m sp1_eats_p) (args : list Arg)
  : result (Organism sp1_eats_m sp1_eats_p) :=
  match args with
  | [] => Ok organism1
  | arg _ _ organism2 :: args =>
      t <- encounter organism1 organism2 ;;
      encounter_series (get0 t) args
  end.

(** *** The series as the specification words it

    A left fold over the trailing organisms: each step is one [encounter]
    whose first component becomes the next [first]. *)

Definition meet {sp1_eats_m sp1_eats_p : bool}
  (first : result (Organism sp1_eats_m sp1_eats_p)) (next : Arg)
  : result (Organism sp1_eats_m sp1_eats_p) :=
  x <- first ;;
  match next with
  | arg _ _ other => t <- encounter x other ;; Ok (get0 t)
  end.

Definition encounter_series_fold {sp1_eats_m sp1_eats_p : bool}
  (first : Organism sp1_eats_m sp1_eats_p) (rest : list Arg)
  : result (Organism sp1_eats_m sp1_eats_p) :=
  fold_left meet rest (Ok first).

(** *** Which series compile

    [encounter_series] instantiates [encounter] for the first organism and
    each trailing one, so each such pair has to pass the [static_assert]. *)

Definition arg_is_plant (a : Arg) : bool :=
  match a with
  | arg _ _ organism2 => is_plant organism2
  end.

Definition series_compiles {sp1_eats_m sp1_eats_p : bool}
  (organism1 : Organism sp1_eats_m sp1_eats_p) (args : list Arg) : bool :=
  forallb (fun a => negb (is_plant organism1) || negb (arg_is_plant a)) args.

End Organisms.

Arguments Organism species_t can_eat_meat can_eat_plants : clear implicits.
Arguments Carnivore species_t : clear implicits.
Arguments Omnivore species_t : clear implicits.
Arguments Herbivore species_t : clear implicits.
Arguments Plant species_t : clear implicits.
Arguments Arg species_t : clear implicits.
Arguments mkOrganism {species_t can_eat_meat can_eat_plants} _ _.
Arguments get_species {species_t can_eat_meat can_eat_plants} _.
Arguments get_vitality {species_t can_eat_meat can_eat_plants} _.
Arguments arg {species_t sp2_eats_m sp2_eats_p} organism2.

(** ** Mirrored rules *)

(** The rule that decides the call with the arguments exchanged. *)
Definition mirror (r : rule) : rule :=
  match r with
  | SecondIsEatenPlant => FirstIsEatenPlant
  | FirstIsEatenPlant => SecondIsEatenPlant
  | FirstEatsSecond => SecondEatsFirst
  | SecondEatsFirst => FirstEatsSecond
  | r => r
  end.

(** ** Some organisms *)

Definition lion : Carnivore string := mkOrganism "Panthera leo"%string 462.
Definition lioness : Carnivore string := mkOrganism "Panthera leo"%string 130.
Definition hyena : Carnivore string := mkOrganism "Crocuta crocuta"%string 40.
Definition gazelle : Herbivore string := mkOrganism "Gazella dorcas"%string 130.
Definition dog : Omnivore Z := mkOrganism 1 15.
Definition grass : Plant string := mkOrganism "Poa annua"%string 50.
Definition carcass : Herbivore string := mkOrganism "Gazella dorcas"%string 0.

(** Organisms at the upper end of [uint64_t]. *)
Definition max_vitality : vitality_t := two64 - 1.
Definition titan : Carnivore string := mkOrganism "Panthera leo"%string max_vitality.
Definition giant : Carnivore string := mkOrganism "Panthera leo"%string (2 ^ 63).
Definition glutton : Herbivore string :=
  mkOrganism "Gazella dorcas"%string max_vitality.

(** Small ones. *)
Definition jackal : Carnivore string := mkOrganism "Canis aureus"%string 2.
Definition fawn : Herbivore string := mkOrganism "Gazella dorcas"%string 2.
Definition sprout : Plant string := mkOrganism "Poa annua"%string 2.

(** ** The four kinds of diet *)

Section Kinds.

Context {species_t : Type}.
Context {can_eat_meat can_eat_plants : bool}.
Implicit Type this : Organism species_t can_eat_meat can_eat_plants.

Definition is_carnivore this : bool := can_eat_meat && negb can_eat_plants.

Definition is_omnivore this : bool := can_eat_meat && can_eat_plants.

Definition is_herbivore this : bool := negb can_eat_meat && can_eat_plants.

End Kinds.

(** ** Meadows *)

(** Plants as the trailing arguments of a series. *)
Definition meadow {species_t : Type} (plants : list (Plant species_t))
  : list (Arg species_t) :=
  map (fun plant => arg plant) plants.

(** The vitality of all the plants together, as an integer. *)
Definition total_vitality {species_t : Type} (plants : list (Plant species_t))
  : Z :=
  fold_right (fun plant sum => get_vitality plant + sum) 0 plants.

Definition zebra : Herbivore string := mkOrganism "Equus quagga"%string 300.
Definition clover : Plant string := mkOrganism "Trifolium repens"%string 7.
Definition hay : Plant string := mkOrganism "Poa annua"%string 0.

(** * Properties *)

(** ** [uint64_t] arithmetic *)

Lemma two64_pos : 0 < two64.
Proof. reflexivity. Qed.

Lemma add64_is_uint64 (x y : vitality_t) : is_uint64 (add64 x y).
Proof. unfold is_uint64, add64. apply Z.mod_pos_bound, two64_pos. Qed.

Lemma add64_comm (x y : vitality_t) : add64 x y = add64 y x.
Proof. unfold add64. now rewrite Z.add_comm. Qed.

Lemma add64_exact (x y : vitality_t) :
  is_uint64 x -> is_uint64 y -> x + y < two64 -> add64 x y = x + y.
Proof.
  unfold is_uint64, add64. intros Hx Hy Hsum.
  apply Z.mod_small. lia.
Qed.

Lemma add64_wraps (x y : vitality_t) :
  is_uint64 x -> is_uint64 y -> two64 <= x + y -> add64 x y = x + y - two64.
Proof.
  unfold is_uint64, add64. intros Hx Hy Hsum.
  symmetry. apply Z.mod_unique_pos with (q := 1); lia.
Qed.

Lemma half_is_uint64 (v : vitality_t) : is_uint64 v -> is_uint64 (v / 2).
Proof.
  unfold is_uint64. intros [Hlo Hhi]. split.
  - apply Z.div_pos; lia.
  - apply Z.le_lt_trans with v; [apply Z.div_le_upper_bound|]; lia.
Qed.

Lemma geb_true (x y : Z) : (x >=? y) = true <-> y <= x.
Proof. rewrite Z.geb_leb. apply Z.leb_le. Qed.

Lemma geb_false (x y : Z) : (x >=? y) = false <-> x < y.
Proof. rewrite Z.geb_leb. apply Z.leb_gt. Qed.

(** ** The concept *)

Section Concept.

Context {species_t : Type} `{EqualityComparable species_t}.

Lemma equal_to_refl (t : species_t) : equal_to t t = true.
Proof. now apply equal_to_spec. Qed.

Lemma equal_to_sym (t u : species_t) : equal_to t u = equal_to u t.
Proof.
  destruct (equal_to t u) eqn:Htu, (equal_to u t) eqn:Hut; trivial.
  - apply equal_to_spec in Htu. subst u.
    rewrite equal_to_refl in Hut. discriminate.
  - apply equal_to_spec in Hut. subst u.
    rewrite equal_to_refl in Htu. discriminate.
Qed.

End Concept.

(** ** Methods of [Organism] *)

Section MethodFacts.

Context {species_t : Type} `{EqualityComparable species_t}.
Context {can_eat_meat can_eat_plants : bool}.
Implicit Type this : Organism species_t can_eat_meat can_eat_plants.

Lemma kill_vitality this : get_vitality (kill this) = 0.
Proof. reflexivity. Qed.

Lemma kill_is_dead this : is_dead (kill this) = true.
Proof. reflexivity. Qed.

Lemma kill_species this : get_species (kill this) = get_species this.
Proof. reflexivity. Qed.

Lemma add_vitality_species this change :
  get_species (add_vitality this change) = get_species this.
Proof. reflexivity. Qed.

Lemma add_vitality_vitality this change :
  get_vitality (add_vitality this change) = add64 (get_vitality this) change.
Proof. reflexivity. Qed.

Lemma is_dead_true this : is_dead this = true <-> get_vitality this = 0.
Proof. unfold is_dead. apply Z.eqb_eq. Qed.

Lemma dead_unchanged this : is_dead this = true -> kill this = this.
Proof.
  rewrite is_dead_true. destruct this as [s v]. simpl.
  intros ->. reflexivity.
Qed.

Lemma kill_well_formed this : well_formed (kill this).
Proof. unfold well_formed, is_uint64. simpl. split; [lia | apply two64_pos]. Qed.

Lemma add_vitality_well_formed this change :
  well_formed (add_vitality this change).
Proof. unfold well_formed. simpl. apply add64_is_uint64. Qed.

End MethodFacts.

(** ** Diets *)

Section Diets.

Context {species_t : Type} `{EqualityComparable species_t}.
Context {m1 p1 m2 p2 : bool}.
Variable a : Organism species_t m1 p1.
Variable b : Organism species_t m2 p2.

(** A plant eats nothing. *)
Lemma plant_cannot_eat : is_plant a = true -> can_eat a b = false.
Proof. unfold is_plant, can_eat. destruct m1, p1; simpl; congruence. Qed.

(** Two organisms that can eat each other are animals. *)
Lemma mutual_eaters_are_animals :
  can_eat a b = true -> can_eat b a = true ->
  is_plant a = false /\ is_plant b = false.
Proof.
  unfold is_plant, can_eat.
  destruct m1, p1, m2, p2; simpl; intros; split; congruence.
Qed.

(** Organisms of one species have one diet. *)
Lemma are_species_equal_true :
  are_species_equal a b = true <->
  get_species a = get_species b /\ m1 = m2 /\ p1 = p2.
Proof.
  unfold are_species_equal.
  rewrite !andb_true_iff, !Bool.eqb_true_iff, equal_to_spec. tauto.
Qed.

Lemma are_species_equal_sym : are_species_equal a b = are_species_equal b a.
Proof.
  unfold are_species_equal.
  rewrite (equal_to_sym (get_species a)).
  destruct m1, p1, m2, p2; reflexivity.
Qed.

(** One who eats the other but is not eaten back has another diet. *)
Lemma one_way_eaters_differ :
  can_eat a b = true -> can_eat b a = false -> are_species_equal a b = false.
Proof.
  unfold are_species_equal, can_eat, is_plant.
  destruct m1, p1, m2, p2; simpl; intros; try congruence;
    now rewrite ?andb_false_r.
Qed.

End Diets.

(** ** [encounter] *)

Ltac open_encounter :=
  unfold encounter, fired_rule, resolve, encounter_rules, nothing_happens,
    first_match;
  cbv zeta.

Ltac fix_diets :=
  unfold can_eat, are_species_equal, is_plant in *;
  repeat progress
    (cbn [Bool.eqb negb andb orb fst snd] in *;
     rewrite ?andb_true_r, ?andb_false_r in *).

Ltac order_facts :=
  repeat match goal with
         | E : (_ >=? _) = true |- _ => apply geb_true in E
         | E : (_ >=? _) = false |- _ => apply geb_false in E
         end.

Ltac split_guards :=
  repeat match goal with
         | |- context [if ?c then _ else _] => destruct c eqn:?
         end;
  cbn [fst snd] in *.

Section EncounterFacts.

Context {species_t : Type} `{EqualityComparable species_t}.
Context {m1 p1 m2 p2 : bool}.
Variable a : Organism species_t m1 p1.
Variable b : Organism species_t m2 p2.

(** The [static_assert] depends on the two diets only. *)
Lemma encounter_rejected :
  encounter a b = StaticAssertFailed <-> is_plant a && is_plant b = true.
Proof.
  open_encounter.
  destruct m1, p1, m2, p2; fix_diets; split_guards;
    split; intro; congruence.
Qed.

(** When the [static_assert] passes the call is decided by the rules. *)
Lemma encounter_resolve :
  is_plant a && is_plant b = false -> encounter a b = snd (resolve a b).
Proof.
  unfold encounter. intros Hab.
  now rewrite <- negb_andb, Hab.
Qed.

(** The rules never leave a call undecided, whatever the diets. *)
Lemma resolve_exhaustive :
  is_plant a && is_plant b = false -> fst (resolve a b) <> IllegalState.
Proof.
  open_encounter.
  destruct m1, p1, m2, p2; fix_diets; intros Hab; try discriminate Hab;
    split_guards; fix_diets; discriminate.
Qed.

(** The dead-party rule is the first one tested. *)
Lemma resolve_dead_party :
  is_dead a || is_dead b = true ->
  resolve a b = (DeadParty, Ok (a, b, None)).
Proof. open_encounter. now intros ->. Qed.

(** Every organism returned has a vitality in the range of [uint64_t]. *)
Lemma encounter_well_formed a' b' child :
  well_formed a -> well_formed b ->
  encounter a b = Ok (a', b', child) ->
  well_formed a' /\ well_formed b'
  /\ match child with Some c => well_formed c | None => True end.
Proof.
  intros Ha Hb. open_encounter. fix_diets. split_guards;
    intros Heq; inversion Heq; subst a' b' child; clear Heq;
    (split; [|split]);
    auto using kill_well_formed, add_vitality_well_formed.
  unfold well_formed. cbn [get_vitality].
  apply half_is_uint64, add64_is_uint64.
Qed.

End EncounterFacts.

(** ** The claims about [encounter] *)

Section EncounterClaims.

Context {species_t : Type} `{EqualityComparable species_t}.

(** C9.  When the [static_assert] passes and at least one of the two
    organisms is dead (vitality 0), [encounter] returns both organisms as
    they were given (same species, diet and vitality) and no offspring,
    whatever the two diets; the deciding rule is the dead-party rule. *)
Theorem encounter_dead_party (m1 p1 m2 p2 : bool)
  (a : Organism species_t m1 p1) (b : Organism species_t m2 p2) :
  is_plant a && is_plant b = false ->
  is_dead a = true \/ is_dead b = true ->
  encounter a b = Ok (a, b, None) /\ fired_rule a b = DeadParty.
Proof.
  intros Hab Hdead.
  assert (Hguard : is_dead a || is_dead b = true).
  { apply orb_true_iff. exact Hdead. }
  unfold fired_rule.
  rewrite (encounter_resolve a b Hab), (resolve_dead_party a b Hguard).
  split; reflexivity.
Qed.

(** C2.  For two organisms that are not both plants, the final
    [throw logic_error("Illegal state")] of [encounter] is not reached: one
    of the rules decides the call, which returns a tuple. *)
Theorem encounter_never_illegal (m1 p1 m2 p2 : bool)
  (a : Organism species_t m1 p1) (b : Organism species_t m2 p2) :
  is_plant a && is_plant b = false ->
  (exists t, encounter a b = Ok t)
  /\ fired_rule a b <> IllegalState
  /\ (forall what, encounter a b <> LogicError what).
Proof.
  intros Hab.
  assert (Hok : exists t, encounter a b = Ok t).
  { rewrite (encounter_resolve a b Hab). revert Hab. open_encounter.
    destruct m1, p1, m2, p2; fix_diets; intros Hab; try discriminate Hab;
      split_guards; fix_diets; eauto. }
  split; [exact Hok | split].
  - exact (resolve_exhaustive a b Hab).
  - intros what Hthrown. destruct Hok as [t Ht]. congruence.
Qed.

(** C1.  For two organisms that are not both plants, [encounter a b] and
    [encounter b a] both return a tuple; the two updated organisms are the
    same, in exchanged positions, and the offspring (if any) has the same
    species, diet and vitality.  The rule deciding [encounter b a] is the
    mirror image of the one deciding [encounter a b], so this holds in each
    rule branch. *)
Theorem encounter_commutative (m1 p1 m2 p2 : bool)
  (a : Organism species_t m1 p1) (b : Organism species_t m2 p2) :
  is_plant a && is_plant b = false ->
  exists a' b' child child',
    encounter a b = Ok (a', b', child)
    /\ encounter b a = Ok (b', a', child')
    /\ option_map snapshot child = option_map snapshot child'
    /\ fired_rule b a = mirror (fired_rule a b).
Proof.
  intros Hab.
  assert (Hba : is_plant b && is_plant a = false) by now rewrite andb_comm.
  rewrite (encounter_resolve a b Hab), (encounter_resolve b a Hba).
  clear Hba. revert Hab. open_encounter.
  destruct m1, p1, m2, p2; fix_diets; intros Hab; try discriminate Hab;
    rewrite ?(equal_to_sym (get_species b) (get_species a)),
      ?(orb_comm (is_dead b) (is_dead a));
    split_guards; order_facts; try lia;
    do 4 eexists; (split; [reflexivity|]); (split; [reflexivity|]);
    (split; [|reflexivity]); try reflexivity;
    match goal with
    | E : equal_to _ _ = true |- _ => apply equal_to_spec in E
    end;
    unfold snapshot; cbn [option_map get_species get_vitality];
    rewrite add64_comm; congruence.
Qed.

(** [add_vitality] and [kill] written out: the species stays, the vitality
    is the [uint64_t] sum, or 0. *)
Lemma add_vitality_record (m p : bool) (this : Organism species_t m p)
  (change : vitality_t) :
  add_vitality this change
  = mkOrganism (get_species this) ((get_vitality this + change) mod two64).
Proof. reflexivity. Qed.

Lemma kill_record (m p : bool) (this : Organism species_t m p) :
  kill this = mkOrganism (get_species this) 0.
Proof. reflexivity. Qed.

Lemma gain_exact (m1 p1 m2 p2 : bool)
  (a : Organism species_t m1 p1) (b : Organism species_t m2 p2) :
  well_formed a -> well_formed b ->
  get_vitality a + get_vitality b < two64 ->
  (get_vitality a + get_vitality b) mod two64
  = get_vitality a + get_vitality b.
Proof.
  unfold well_formed, is_uint64. intros Ha Hb Hsum.
  apply Z.mod_small. lia.
Qed.

Lemma half_gain_exact (m1 p1 m2 p2 : bool)
  (a : Organism species_t m1 p1) (b : Organism species_t m2 p2) :
  well_formed a -> well_formed b ->
  get_vitality a + get_vitality b / 2 < two64 ->
  (get_vitality a + get_vitality b / 2) mod two64
  = get_vitality a + get_vitality b / 2.
Proof.
  unfold well_formed, is_uint64. intros Ha Hb Hsum.
  apply Z.mod_small.
  assert (0 <= get_vitality b / 2) by (apply Z.div_pos; lia). lia.
Qed.

(** C3, amended.  Two living animals that can eat each other and are not
    of the same species ([are_species_equal] false) fight: [encounter]
    returns no offspring; [a] is killed (vitality 0) when [b]'s vitality is
    at least [a]'s, and otherwise comes back with the vitality
    [(a.vitality + b.vitality / 2) mod 2^64], which is
    [a.vitality + b.vitality / 2] when the vitalities are in range and this
    sum is below [2^64]; likewise for [b]; with equal vitalities both
    die. *)
Theorem encounter_mutual_predation (m1 p1 m2 p2 : bool)
  (a : Organism species_t m1 p1) (b : Organism species_t m2 p2) :
  is_dead a = false -> is_dead b = false ->
  is_plant a = false -> is_plant b = false ->
  can_eat a b = true -> can_eat b a = true ->
  are_species_equal a b = false ->
  exists a' b',
    encounter a b = Ok (a', b', None)
    /\ (get_vitality a <= get_vitality b ->
        a' = mkOrganism (get_species a) 0)
    /\ (get_vitality b < get_vitality a ->
        a' = mkOrganism (get_species a)
               ((get_vitality a + get_vitality b / 2) mod two64))
    /\ (get_vitality b < get_vitality a ->
        well_formed a -> well_formed b ->
        get_vitality a + get_vitality b / 2 < two64 ->
        a' = mkOrganism (get_species a)
               (get_vitality a + get_vitality b / 2))
    /\ (get_vitality b <= get_vitality a ->
        b' = mkOrganism (get_species b) 0)
    /\ (get_vitality a < get_vitality b ->
        b' = mkOrganism (get_species b)
               ((get_vitality b + get_vitality a / 2) mod two64))
    /\ (get_vitality a < get_vitality b ->
        well_formed a -> well_formed b ->
        get_vitality b + get_vitality a / 2 < two64 ->
        b' = mkOrganism (get_species b)
               (get_vitality b + get_vitality a / 2))
    /\ (get_vitality a = get_vitality b ->
        is_dead a' = true /\ is_dead b' = true)
    /\ fired_rule a b = MutualPredation.
Proof.
  intros Ha Hb Hpa Hpb Hab Hba Hspecies.
  assert (Hassert : is_plant a && is_plant b = false) by now rewrite Hpa.
  rewrite (encounter_resolve a b Hassert). open_encounter.
  rewrite Ha, Hb, Hspecies, Hab, Hba, Hpa, Hpb. cbn [negb andb orb fst snd].
  rewrite !add_vitality_record, !kill_record.
  do 2 eexists. split; [reflexivity|].
  destruct (get_vitality b >=? get_vitality a) eqn:Hge1,
    (get_vitality a >=? get_vitality b) eqn:Hge2;
    order_facts; repeat split; intros; try lia; try reflexivity;
    f_equal; apply half_gain_exact; assumption.
Qed.

(** X18.  Two living organisms of one species (equal species values, equal
    diets), not plants, whose vitalities are in range and add up to less
    than [2^64], mate: [encounter] returns both parents unchanged and an
    offspring with the species and diet of the first and the mean of the
    two vitalities, rounded down.  Nothing is assumed about what the two
    can eat. *)
Theorem encounter_mating (m1 p1 m2 p2 : bool)
  (a : Organism species_t m1 p1) (b : Organism species_t m2 p2) :
  is_plant a && is_plant b = false ->
  is_dead a = false -> is_dead b = false ->
  equal_to (get_species a) (get_species b) = true ->
  m1 = m2 -> p1 = p2 ->
  well_formed a -> well_formed b ->
  get_vitality a + get_vitality b < two64 ->
  encounter a b
  = Ok (a, b,
        Some (mkOrganism (get_species a)
                ((get_vitality a + get_vitality b) / 2)))
  /\ fired_rule a b = Mating.
Proof.
  intros Hassert Ha Hb Hspecies Hm Hp Hwa Hwb Hsum.
  assert (Hequal : are_species_equal a b = true).
  { apply are_species_equal_true. apply equal_to_spec in Hspecies. auto. }
  rewrite (encounter_resolve a b Hassert). open_encounter.
  rewrite Ha, Hb, Hequal. cbn [negb andb orb fst snd].
  unfold add64. rewrite (gain_exact _ _ _ _ a b) by assumption.
  split; reflexivity.
Qed.

(** C5, amended.  A living animal [predator] that can eat a living animal
    [prey] which cannot eat it back (the two are then never of the same
    species): in either argument order [encounter] returns no offspring;
    when the prey's vitality is at least the predator's both are returned
    unchanged, otherwise the prey is killed (vitality 0) and the predator
    comes back with the vitality
    [(predator.vitality + prey.vitality / 2) mod 2^64], which is
    [predator.vitality + prey.vitality / 2] when the vitalities are in range
    and this sum is below [2^64]. *)
Theorem encounter_one_way_predation (m1 p1 m2 p2 : bool)
  (predator : Organism species_t m1 p1) (prey : Organism species_t m2 p2) :
  is_dead predator = false -> is_dead prey = false ->
  is_plant predator = false -> is_plant prey = false ->
  can_eat predator prey = true -> can_eat prey predator = false ->
  (get_vitality predator <= get_vitality prey ->
   encounter predator prey = Ok (predator, prey, None)
   /\ encounter prey predator = Ok (prey, predator, None))
  /\ (get_vitality prey < get_vitality predator ->
      encounter predator prey
      = Ok (mkOrganism (get_species predator)
              ((get_vitality predator + get_vitality prey / 2) mod two64),
            mkOrganism (get_species prey) 0, None)
      /\ encounter prey predator
         = Ok (mkOrganism (get_species prey) 0,
               mkOrganism (get_species predator)
                 ((get_vitality predator + get_vitality prey / 2) mod two64),
               None))
  /\ (get_vitality prey < get_vitality predator ->
      well_formed predator -> well_formed prey ->
      get_vitality predator + get_vitality prey / 2 < two64 ->
      encounter predator prey
      = Ok (mkOrganism (get_species predator)
              (get_vitality predator + get_vitality prey / 2),
            mkOrganism (get_species prey) 0, None)
      /\ encounter prey predator
         = Ok (mkOrganism (get_species prey) 0,
               mkOrganism (get_species predator)
                 (get_vitality predator + get_vitality prey / 2),
               None))
  /\ are_species_equal predator prey = false
  /\ fired_rule predator prey = FirstEatsSecond
  /\ fired_rule prey predator = SecondEatsFirst.
Proof.
  intros Ha Hb Hpa Hpb Hab Hba.
  pose proof (one_way_eaters_differ predator prey Hab Hba) as Hspecies.
  assert (Hspecies' : are_species_equal prey predator = false).
  { now rewrite are_species_equal_sym. }
  assert (Hassert : is_plant predator && is_plant prey = false)
    by now rewrite Hpa.
  assert (Hassert' : is_plant prey && is_plant predator = false)
    by now rewrite Hpb.
  rewrite (encounter_resolve _ _ Hassert), (encounter_resolve _ _ Hassert').
  open_encounter.
  rewrite Ha, Hb, Hspecies, Hspecies', Hab, Hba, Hpa, Hpb.
  cbn [negb andb orb fst snd].
  rewrite !add_vitality_record, !kill_record.
  destruct (get_vitality prey >=? get_vitality predator) eqn:Hge;
    order_facts; repeat split; intros; try lia; try reflexivity;
    rewrite half_gain_exact by assumption; reflexivity.
Qed.

(** C6, amended.  A living organism [eater] that can eat a living plant: in
    either argument order [encounter] returns no offspring, the plant is
    killed (vitality 0) and the eater comes back with the vitality
    [(eater.vitality + plant.vitality) mod 2^64], which is
    [eater.vitality + plant.vitality] when the vitalities are in range and
    this sum is below [2^64].  The rule for a plant in second position comes
    first: the rule for a plant in first position decides a call only when
    the guard of the other one fails. *)
Theorem encounter_plant_predation (m1 p1 m2 p2 : bool)
  (eater : Organism species_t m1 p1) (plant : Organism species_t m2 p2) :
  is_plant plant = true ->
  is_dead eater = false -> is_dead plant = false ->
  can_eat eater plant = true ->
  encounter eater plant
  = Ok (mkOrganism (get_species eater)
          ((get_vitality eater + get_vitality plant) mod two64),
        mkOrganism (get_species plant) 0, None)
  /\ encounter plant eater
     = Ok (mkOrganism (get_species plant) 0,
           mkOrganism (get_species eater)
             ((get_vitality eater + get_vitality plant) mod two64),
           None)
  /\ (well_formed eater -> well_formed plant ->
      get_vitality eater + get_vitality plant < two64 ->
      encounter eater plant
      = Ok (mkOrganism (get_species eater)
              (get_vitality eater + get_vitality plant),
            mkOrganism (get_species plant) 0, None)
      /\ encounter plant eater
         = Ok (mkOrganism (get_species plant) 0,
               mkOrganism (get_species eater)
                 (get_vitality eater + get_vitality plant),
               None))
  /\ fired_rule eater plant = SecondIsEatenPlant
  /\ fired_rule plant eater = FirstIsEatenPlant
  /\ (forall (m p m' p' : bool)
        (x : Organism species_t m p) (y : Organism species_t m' p'),
        fired_rule x y = FirstIsEatenPlant ->
        is_plant y && can_eat x y = false).
Proof.
  intros Hplant Ha Hb Heats.
  pose proof (plant_cannot_eat plant eater Hplant) as Hcannot.
  pose proof (one_way_eaters_differ eater plant Heats Hcannot) as Hspecies.
  assert (Hspecies' : are_species_equal plant eater = false).
  { now rewrite are_species_equal_sym. }
  assert (Heater : is_plant eater = false).
  { destruct (is_plant eater) eqn:Hp; trivial.
    rewrite (plant_cannot_eat eater plant Hp) in Heats. discriminate. }
  assert (Hassert : is_plant eater && is_plant plant = false)
    by now rewrite Heater.
  assert (Hassert' : is_plant plant && is_plant eater = false)
    by now rewrite Heater, andb_false_r.
  rewrite (encounter_resolve _ _ Hassert), (encounter_resolve _ _ Hassert').
  split; [|split; [|split; [|split; [|split]]]].
  6: { intros m p m' p' x y. open_encounter.
       destruct (is_plant y && can_eat x y) eqn:Hguard;
         split_guards; intros Hrule; try discriminate Hrule; reflexivity. }
  all: open_encounter;
    rewrite ?Ha, ?Hb, ?Hspecies, ?Hspecies', ?Heats, ?Hcannot, ?Hplant,
      ?Heater;
    cbn [negb andb orb fst snd];
    rewrite ?add_vitality_record, ?kill_record; try reflexivity.
  intros Hwe Hwp Hsum.
  rewrite (gain_exact _ _ _ _ eater plant) by assumption.
  split; reflexivity.
Qed.

End EncounterClaims.

(** ** The claim about [add_vitality] *)

Section AddVitalityClaim.

Context {species_t : Type} `{EqualityComparable species_t}.

(** C7, amended.  For an organism [e] and a [delta], both in the range of
    [uint64_t], [add_vitality] keeps species and diet and returns the
    vitality [(e.vitality + delta) mod 2^64].  This is exactly
    [e.vitality + delta], hence not smaller than [e.vitality], when that sum
    is below [2^64]; otherwise it is [e.vitality + delta - 2^64], which is
    smaller than [e.vitality]. *)
Theorem add_vitality_modular (can_eat_meat can_eat_plants : bool)
  (e : Organism species_t can_eat_meat can_eat_plants) (delta : vitality_t) :
  well_formed e -> is_uint64 delta ->
  get_species (add_vitality e delta) = get_species e
  /\ get_vitality (add_vitality e delta) = (get_vitality e + delta) mod two64
  /\ well_formed (add_vitality e delta)
  /\ (get_vitality e + delta < two64 ->
      get_vitality (add_vitality e delta) = get_vitality e + delta
      /\ get_vitality e <= get_vitality (add_vitality e delta))
  /\ (two64 <= get_vitality e + delta ->
      get_vitality (add_vitality e delta) = get_vitality e + delta - two64
      /\ get_vitality (add_vitality e delta) < get_vitality e).
Proof.
  unfold well_formed. intros He Hdelta.
  rewrite add_vitality_vitality.
  split; [reflexivity|].
  split; [reflexivity|].
  split; [apply add64_is_uint64|].
  split.
  - intros Hsum. rewrite add64_exact by assumption.
    unfold is_uint64 in *. lia.
  - intros Hsum. rewrite add64_wraps by assumption.
    unfold is_uint64 in *. lia.
Qed.

End AddVitalityClaim.

(** ** [encounter_series] *)

Section SeriesFacts.

Context {species_t : Type} `{EqualityComparable species_t}.

Lemma fold_meet_static_assert (m p : bool) (rest : list (Arg species_t)) :
  fold_left (@meet species_t _ m p) rest StaticAssertFailed
  = StaticAssertFailed.
Proof. induction rest as [|next rest IH]; [reflexivity | exact IH]. Qed.

Lemma fold_meet_logic_error (m p : bool) (rest : list (Arg species_t)) what :
  fold_left (@meet species_t _ m p) rest (LogicError what) = LogicError what.
Proof. induction rest as [|next rest IH]; [reflexivity | exact IH]. Qed.

(** One step of the series. *)
Lemma encounter_series_cons (m1 p1 m2 p2 : bool)
  (organism1 : Organism species_t m1 p1) (organism2 : Organism species_t m2 p2)
  (args : list (Arg species_t)) :
  encounter_series organism1 (arg organism2 :: args)
  = (t <- encounter organism1 organism2 ;; encounter_series (get0 t) args).
Proof. reflexivity. Qed.

(** Whether a series compiles depends on the type of the first organism
    only, not on its vitality. *)
Lemma series_compiles_type (m p : bool) (x y : Organism species_t m p)
  (args : list (Arg species_t)) :
  series_compiles x args = series_compiles y args.
Proof. reflexivity. Qed.

Lemma series_compiles_cons (m1 p1 m2 p2 : bool)
  (organism1 : Organism species_t m1 p1) (organism2 : Organism species_t m2 p2)
  (args : list (Arg species_t)) :
  series_compiles organism1 (arg organism2 :: args) = true ->
  is_plant organism1 && is_plant organism2 = false
  /\ series_compiles organism1 args = true.
Proof.
  unfold series_compiles. cbn [forallb arg_is_plant].
  rewrite andb_true_iff, <- negb_andb, negb_true_iff. trivial.
Qed.

(** A series that compiles returns an organism. *)
Lemma encounter_series_returns (args : list (Arg species_t)) :
  forall (m p : bool) (organism1 : Organism species_t m p),
    series_compiles organism1 args = true ->
    exists last, encounter_series organism1 args = Ok last.
Proof.
  induction args as [|[m2 p2 organism2] args IH]; intros m p organism1 Hc.
  - exists organism1. reflexivity.
  - apply series_compiles_cons in Hc as [Hassert Hc].
    rewrite encounter_series_cons.
    assert (Hok : exists t, encounter organism1 organism2 = Ok t).
    { destruct (encounter organism1 organism2) as [t| |what] eqn:Hcall.
      - eauto.
      - apply encounter_rejected in Hcall. congruence.
      - rewrite (encounter_resolve _ _ Hassert) in Hcall.
        pose proof (resolve_exhaustive organism1 organism2 Hassert) as Hrule.
        revert Hcall Hrule. open_encounter. split_guards; congruence. }
    destruct Hok as [t ->]. cbn [bind].
    apply IH. now rewrite (series_compiles_type _ _ _ organism1).
Qed.

End SeriesFacts.

Section SeriesClaims.

Context {species_t : Type} `{EqualityComparable species_t}.

(** C8.  With no trailing organism [encounter_series] returns its first
    argument unchanged; in general it equals the left fold of the first
    argument through one [encounter] per trailing organism, in order, where
    only the first component of each result tuple is kept as the next
    accumulator (the other organism's update and the offspring are dropped).
    A series that compiles returns an organism. *)
Theorem encounter_series_is_fold (m p : bool) (x : Organism species_t m p) :
  encounter_series x [] = Ok x
  /\ (forall rest, encounter_series x rest = encounter_series_fold x rest)
  /\ (forall rest, series_compiles x rest = true ->
        exists last, encounter_series x rest = Ok last).
Proof.
  split; [reflexivity | split].
  - intros rest. unfold encounter_series_fold. revert x.
    induction rest as [|[m2 p2 organism2] rest IH]; intros x.
    + reflexivity.
    + rewrite encounter_series_cons. cbn [fold_left meet bind].
      destruct (encounter x organism2) as [t| |what]; cbn [bind].
      * apply IH.
      * symmetry. apply fold_meet_static_assert.
      * symmetry. apply fold_meet_logic_error.
  - intros rest. apply encounter_series_returns.
Qed.

(** C10.  A dead first organism passes through a whole series unchanged:
    when every call of the series passes the [static_assert] and [x] has
    vitality 0, [encounter_series x args] returns [x], whatever the species,
    diets and vitalities of the others. *)
Theorem encounter_series_dead (m p : bool) (x : Organism species_t m p)
  (args : list (Arg species_t)) :
  is_dead x = true ->
  series_compiles x args = true ->
  encounter_series x args = Ok x.
Proof.
  intros Hdead. induction args as [|[m2 p2 organism2] args IH]; intros Hc.
  - reflexivity.
  - apply series_compiles_cons in Hc as [Hassert Hc].
    rewrite encounter_series_cons, (encounter_resolve _ _ Hassert).
    rewrite resolve_dead_party by now rewrite Hdead.
    cbn [bind snd get0 fst]. exact (IH Hc).
Qed.

End SeriesClaims.

(** * The claims at concrete organisms *)

Ltac by_computation := vm_compute; try reflexivity; try (intro; discriminate).

(** C1 at a lion and a gazelle. *)
Lemma encounter_commutative_lion_gazelle :
  is_plant lion && is_plant gazelle = false
  /\ exists a' b' child child',
       encounter lion gazelle = Ok (a', b', child)
       /\ encounter gazelle lion = Ok (b', a', child')
       /\ option_map snapshot child = option_map snapshot child'
       /\ fired_rule gazelle lion = mirror (fired_rule lion gazelle).
Proof.
  split; [reflexivity|].
  apply (encounter_commutative _ _ _ _ lion gazelle). reflexivity.
Defined.

(** C2 at a gazelle and grass. *)
Lemma encounter_never_illegal_gazelle_grass :
  is_plant gazelle && is_plant grass = false
  /\ (exists t, encounter gazelle grass = Ok t)
  /\ fired_rule gazelle grass <> IllegalState
  /\ (forall what, encounter gazelle grass <> LogicError what).
Proof.
  split; [reflexivity|].
  apply (encounter_never_illegal _ _ _ _ gazelle grass). reflexivity.
Defined.

(** Counterexamples to C3 without its amendment.  A lion and a lioness are
    living animals that can eat each other, yet they mate: the call returns
    an offspring and kills nobody.  A lion of the largest vitality beats a
    jackal of vitality 2 and comes back with vitality 0, not with one
    more. *)
Lemma mutual_predation_counterexamples :
  ((is_dead lion = false /\ is_dead lioness = false
    /\ is_plant lion = false /\ is_plant lioness = false
    /\ can_eat lion lioness = true /\ can_eat lioness lion = true)
   /\ encounter lion lioness
      = Ok (lion, lioness, Some (mkOrganism "Panthera leo"%string 296))
   /\ ~ (exists a' b', encounter lion lioness = Ok (a', b', None)))
  /\ ((is_dead titan = false /\ is_dead jackal = false
       /\ is_plant titan = false /\ is_plant jackal = false
       /\ can_eat titan jackal = true /\ can_eat jackal titan = true
       /\ are_species_equal titan jackal = false
       /\ well_formed titan /\ well_formed jackal
       /\ get_vitality jackal < get_vitality titan)
      /\ encounter titan jackal
         = Ok (mkOrganism "Panthera leo"%string 0,
               mkOrganism "Canis aureus"%string 0, None)
      /\ ~ (exists a' b',
              encounter titan jackal = Ok (a', b', None)
              /\ get_vitality a'
                 = get_vitality titan + get_vitality jackal / 2)).
Proof.
  split; (split; [repeat split; by_computation | split; [reflexivity|]]).
  - intros (a' & b' & Hcall). vm_compute in Hcall. discriminate Hcall.
  - intros (a' & b' & Hcall & Hvitality).
    vm_compute in Hcall. inversion Hcall; subst a' b'.
    vm_compute in Hvitality. discriminate Hvitality.
Qed.

(** C3, amended, at a lion and a hyena. *)
Lemma encounter_mutual_predation_lion_hyena :
  (is_dead lion = false /\ is_dead hyena = false
   /\ is_plant lion = false /\ is_plant hyena = false
   /\ can_eat lion hyena = true /\ can_eat hyena lion = true
   /\ are_species_equal lion hyena = false)
  /\ exists a' b',
       encounter lion hyena = Ok (a', b', None)
       /\ (get_vitality lion <= get_vitality hyena ->
           a' = mkOrganism (get_species lion) 0)
       /\ (get_vitality hyena < get_vitality lion ->
           a' = mkOrganism (get_species lion)
                  ((get_vitality lion + get_vitality hyena / 2) mod two64))
       /\ (get_vitality hyena < get_vitality lion ->
           well_formed lion -> well_formed hyena ->
           get_vitality lion + get_vitality hyena / 2 < two64 ->
           a' = mkOrganism (get_species lion)
                  (get_vitality lion + get_vitality hyena / 2))
       /\ (get_vitality hyena <= get_vitality lion ->
           b' = mkOrganism (get_species hyena) 0)
       /\ (get_vitality lion < get_vitality hyena ->
           b' = mkOrganism (get_species hyena)
                  ((get_vitality hyena + get_vitality lion / 2) mod two64))
       /\ (get_vitality lion < get_vitality hyena ->
           well_formed lion -> well_formed hyena ->
           get_vitality hyena + get_vitality lion / 2 < two64 ->
           b' = mkOrganism (get_species hyena)
                  (get_vitality hyena + get_vitality lion / 2))
       /\ (get_vitality lion = get_vitality hyena ->
           is_dead a' = true /\ is_dead b' = true)
       /\ fired_rule lion hyena = MutualPredation.
Proof.
  split; [repeat split; reflexivity|].
  apply (encounter_mutual_predation _ _ _ _ lion hyena); reflexivity.
Defined.

(** C4.  The code breaks the claim where the sum of the parents' vitalities
    overflows: two living lions of vitality [2^64 - 1] and [2^63] get an
    offspring of vitality [2^62 - 1], while the mean of the two, rounded
    down, is [2^63 + 2^62 - 1] and fits in [uint64_t]. *)
Lemma mating_sum_wraps :
  (is_dead titan = false /\ is_dead giant = false
   /\ well_formed titan /\ well_formed giant
   /\ are_species_equal titan giant = true)
  /\ encounter titan giant
     = Ok (titan, giant, Some (mkOrganism "Panthera leo"%string (2 ^ 62 - 1)))
  /\ (get_vitality titan + get_vitality giant) / 2 = 2 ^ 63 + 2 ^ 62 - 1
  /\ is_uint64 ((get_vitality titan + get_vitality giant) / 2)
  /\ ~ (exists child,
          encounter titan giant = Ok (titan, giant, Some child)
          /\ get_vitality child
             = (get_vitality titan + get_vitality giant) / 2).
Proof.
  split; [|split; [|split; [|split]]].
  - repeat split; by_computation.
  - reflexivity.
  - reflexivity.
  - split; by_computation.
  - intros (child & Hcall & Hvitality).
    vm_compute in Hcall. inversion Hcall; subst child.
    vm_compute in Hvitality. discriminate Hvitality.
Qed.

(** X18 at a lion and a lioness, two carnivores that can eat each other. *)
Lemma encounter_mating_lion_lioness :
  (is_plant lion && is_plant lioness = false
   /\ is_dead lion = false /\ is_dead lioness = false
   /\ equal_to (get_species lion) (get_species lioness) = true
   /\ well_formed lion /\ well_formed lioness
   /\ get_vitality lion + get_vitality lioness < two64
   /\ can_eat lion lioness = true /\ can_eat lioness lion = true)
  /\ encounter lion lioness
     = Ok (lion, lioness,
           Some (mkOrganism (get_species lion)
                   ((get_vitality lion + get_vitality lioness) / 2)))
  /\ fired_rule lion lioness = Mating.
Proof.
  assert (Hlion : well_formed lion) by (split; by_computation).
  assert (Hlioness : well_formed lioness) by (split; by_computation).
  split.
  - repeat (split; [first [assumption | reflexivity]|]). reflexivity.
  - apply (encounter_mating _ _ _ _ lion lioness);
      first [assumption | reflexivity].
Defined.

(** Counterexample to C5 without its amendment: a lion of the largest
    vitality eats a fawn of vitality 2 and comes back with vitality 0, not
    with one more. *)
Lemma one_way_predation_wraps :
  (is_dead titan = false /\ is_dead fawn = false
   /\ is_plant titan = false /\ is_plant fawn = false
   /\ can_eat titan fawn = true /\ can_eat fawn titan = false
   /\ well_formed titan /\ well_formed fawn
   /\ get_vitality fawn < get_vitality titan)
  /\ encounter titan fawn
     = Ok (mkOrganism "Panthera leo"%string 0,
           mkOrganism "Gazella dorcas"%string 0, None)
  /\ ~ (exists a' b',
          encounter titan fawn = Ok (a', b', None)
          /\ get_vitality a' = get_vitality titan + get_vitality fawn / 2).
Proof.
  split; [repeat split; by_computation | split; [reflexivity|]].
  intros (a' & b' & Hcall & Hvitality).
  vm_compute in Hcall. inversion Hcall; subst a' b'.
  vm_compute in Hvitality. discriminate Hvitality.
Qed.

(** C5, amended, at a lion and a gazelle. *)
Lemma encounter_one_way_predation_lion_gazelle :
  (is_dead lion = false /\ is_dead gazelle = false
   /\ is_plant lion = false /\ is_plant gazelle = false
   /\ can_eat lion gazelle = true /\ can_eat gazelle lion = false)
  /\ (get_vitality lion <= get_vitality gazelle ->
      encounter lion gazelle = Ok (lion, gazelle, None)
      /\ encounter gazelle lion = Ok (gazelle, lion, None))
  /\ (get_vitality gazelle < get_vitality lion ->
      encounter lion gazelle
      = Ok (mkOrganism (get_species lion)
              ((get_vitality lion + get_vitality gazelle / 2) mod two64),
            mkOrganism (get_species gazelle) 0, None)
      /\ encounter gazelle lion
         = Ok (mkOrganism (get_species gazelle) 0,
               mkOrganism (get_species lion)
                 ((get_vitality lion + get_vitality gazelle / 2) mod two64),
               None))
  /\ (get_vitality gazelle < get_vitality lion ->
      well_formed lion -> well_formed gazelle ->
      get_vitality lion + get_vitality gazelle / 2 < two64 ->
      encounter lion gazelle
      = Ok (mkOrganism (get_species lion)
              (get_vitality lion + get_vitality gazelle / 2),
            mkOrganism (get_species gazelle) 0, None)
      /\ encounter gazelle lion
         = Ok (mkOrganism (get_species gazelle) 0,
               mkOrganism (get_species lion)
                 (get_vitality lion + get_vitality gazelle / 2),
               None))
  /\ are_species_equal lion gazelle = false
  /\ fired_rule lion gazelle = FirstEatsSecond
  /\ fired_rule gazelle lion = SecondEatsFirst.
Proof.
  split; [repeat split; reflexivity|].
  apply (encounter_one_way_predation _ _ _ _ lion gazelle); reflexivity.
Defined.

(** Counterexample to C6 without its amendment: a gazelle of the largest
    vitality eats a sprout of vitality 2 and comes back with vitality 1,
    less than it had. *)
Lemma plant_predation_wraps :
  (is_plant sprout = true
   /\ is_dead glutton = false /\ is_dead sprout = false
   /\ can_eat glutton sprout = true
   /\ well_formed glutton /\ well_formed sprout)
  /\ encounter glutton sprout
     = Ok (mkOrganism "Gazella dorcas"%string 1,
           mkOrganism "Poa annua"%string 0, None)
  /\ 1 < get_vitality glutton
  /\ ~ (exists a' b',
          encounter glutton sprout = Ok (a', b', None)
          /\ get_vitality a' = get_vitality glutton + get_vitality sprout).
Proof.
  split; [repeat split; by_computation | split; [reflexivity|split]].
  - reflexivity.
  - intros (a' & b' & Hcall & Hvitality).
    vm_compute in Hcall. inversion Hcall; subst a' b'.
    vm_compute in Hvitality. discriminate Hvitality.
Qed.

(** C6, amended, at a gazelle and grass. *)
Lemma encounter_plant_predation_gazelle_grass :
  (is_plant grass = true
   /\ is_dead gazelle = false /\ is_dead grass = false
   /\ can_eat gazelle grass = true)
  /\ encounter gazelle grass
     = Ok (mkOrganism (get_species gazelle)
             ((get_vitality gazelle + get_vitality grass) mod two64),
           mkOrganism (get_species grass) 0, None)
  /\ encounter grass gazelle
     = Ok (mkOrganism (get_species grass) 0,
           mkOrganism (get_species gazelle)
             ((get_vitality gazelle + get_vitality grass) mod two64),
           None)
  /\ (well_formed gazelle -> well_formed grass ->
      get_vitality gazelle + get_vitality grass < two64 ->
      encounter gazelle grass
      = Ok (mkOrganism (get_species gazelle)
              (get_vitality gazelle + get_vitality grass),
            mkOrganism (get_species grass) 0, None)
      /\ encounter grass gazelle
         = Ok (mkOrganism (get_species grass) 0,
               mkOrganism (get_species gazelle)
                 (get_vitality gazelle + get_vitality grass),
               None))
  /\ fired_rule gazelle grass = SecondIsEatenPlant
  /\ fired_rule grass gazelle = FirstIsEatenPlant
  /\ (forall (m p m' p' : bool)
        (x : Organism string m p) (y : Organism string m' p'),
        fired_rule x y = FirstIsEatenPlant ->
        is_plant y && can_eat x y = false).
Proof.
  split; [repeat split; reflexivity|].
  apply (encounter_plant_predation _ _ _ _ gazelle grass); reflexivity.
Defined.

(** Counterexample to C7 without its amendment: adding 1 to the largest
    vitality gives 0, which is neither the sum nor at least the old
    vitality. *)
Lemma add_vitality_overflows :
  (well_formed titan /\ is_uint64 1)
  /\ get_vitality (add_vitality titan 1) = 0
  /\ get_vitality (add_vitality titan 1) <> get_vitality titan + 1
  /\ get_vitality (add_vitality titan 1) < get_vitality titan.
Proof. repeat split; by_computation. Qed.

(** C7, amended, at a lion and 20. *)
Lemma add_vitality_modular_lion :
  (well_formed lion /\ is_uint64 20)
  /\ get_species (add_vitality lion 20) = get_species lion
  /\ get_vitality (add_vitality lion 20) = (get_vitality lion + 20) mod two64
  /\ well_formed (add_vitality lion 20)
  /\ (get_vitality lion + 20 < two64 ->
      get_vitality (add_vitality lion 20) = get_vitality lion + 20
      /\ get_vitality lion <= get_vitality (add_vitality lion 20))
  /\ (two64 <= get_vitality lion + 20 ->
      get_vitality (add_vitality lion 20) = get_vitality lion + 20 - two64
      /\ get_vitality (add_vitality lion 20) < get_vitality lion).
Proof.
  assert (Hlion : well_formed lion) by (repeat split; by_computation).
  assert (Hdelta : is_uint64 20) by (repeat split; by_computation).
  split; [split; assumption|].
  apply (add_vitality_modular _ _ lion 20); assumption.
Defined.

(** C9 at a carcass and a lion. *)
Lemma encounter_dead_party_carcass_lion :
  (is_plant carcass && is_plant lion = false
   /\ (is_dead carcass = true \/ is_dead lion = true))
  /\ encounter carcass lion = Ok (carcass, lion, None)
  /\ fired_rule carcass lion = DeadParty.
Proof.
  split; [split; [reflexivity | left; reflexivity]|].
  apply (encounter_dead_party _ _ _ _ carcass lion);
    [reflexivity | left; reflexivity].
Defined.

(** C10 at a carcass meeting a lion, grass and a gazelle. *)
Lemma encounter_series_dead_carcass :
  (is_dead carcass = true
   /\ series_compiles carcass [arg lion; arg grass; arg gazelle] = true)
  /\ encounter_series carcass [arg lion; arg grass; arg gazelle] = Ok carcass.
Proof.
  split; [split; reflexivity|].
  apply (encounter_series_dead _ _ carcass); reflexivity.
Defined.

(** * Further examples *)

(** Each rule decides some call. *)
Lemma each_rule_fires :
  fired_rule carcass lion = DeadParty
  /\ fired_rule lion lioness = Mating
  /\ fired_rule lion grass = MutualInability
  /\ fired_rule lion hyena = MutualPredation
  /\ fired_rule gazelle grass = SecondIsEatenPlant
  /\ fired_rule grass gazelle = FirstIsEatenPlant
  /\ fired_rule lion gazelle = FirstEatsSecond
  /\ fired_rule gazelle lion = SecondEatsFirst.
Proof. repeat split. Qed.

(** Two plants do not compile. *)
Example plants_do_not_meet : encounter grass grass = StaticAssertFailed.
Proof. reflexivity. Qed.

(** Parents of vitality 10 and 20 have an offspring of vitality 15. *)
Example mating_10_20 :
  encounter (mkOrganism 1 10 : Omnivore Z) (mkOrganism 1 20 : Omnivore Z)
  = Ok (mkOrganism 1 10, mkOrganism 1 20, Some (mkOrganism 1 15)).
Proof. reflexivity. Qed.

(** Two predators of vitality 50 kill each other. *)
Example fight_50_50 :
  encounter (mkOrganism 1 50 : Carnivore Z) (mkOrganism 2 50 : Omnivore Z)
  = Ok (mkOrganism 1 0, mkOrganism 2 0, None).
Proof. reflexivity. Qed.

(** A predator of vitality 100 beats one of vitality 40 and ends with 120. *)
Example fight_100_40 :
  encounter (mkOrganism 1 100 : Carnivore Z) (mkOrganism 2 40 : Omnivore Z)
  = Ok (mkOrganism 1 120, mkOrganism 2 0, None).
Proof. reflexivity. Qed.

(** A herbivore of vitality 30 eats a plant of vitality 50 and ends with 80. *)
Example grazing_30_50 :
  encounter (mkOrganism 1 30 : Herbivore Z) (mkOrganism 2 50 : Plant Z)
  = Ok (mkOrganism 1 80, mkOrganism 2 0, None).
Proof. reflexivity. Qed.

(** A carnivore of vitality 10 does not get a herbivore of vitality 10. *)
Example hunt_10_10 :
  encounter (mkOrganism 1 10 : Carnivore Z) (mkOrganism 2 10 : Herbivore Z)
  = Ok (mkOrganism 1 10, mkOrganism 2 10, None).
Proof. reflexivity. Qed.

(** A winner at the upper end of [uint64_t] loses vitality by winning. *)
Example fight_overflows :
  encounter titan (mkOrganism "Crocuta crocuta"%string 2 : Carnivore string)
  = Ok (mkOrganism "Panthera leo"%string 0,
        mkOrganism "Crocuta crocuta"%string 0, None).
Proof. reflexivity. Qed.

(** A series of three encounters, and the same as a fold. *)
Example series_of_three :
  encounter_series lion [arg gazelle; arg grass; arg hyena]
  = Ok (mkOrganism "Panthera leo"%string 547)
  /\ encounter_series_fold lion [arg gazelle; arg grass; arg hyena]
     = Ok (mkOrganism "Panthera leo"%string 547).
Proof. split; reflexivity. Qed.

(** A dog meets another dog and a smaller carnivore. *)
Example series_of_dog :
  encounter_series dog [arg dog; arg (mkOrganism 7 4 : Carnivore Z)]
  = Ok (mkOrganism 1 17).
Proof. reflexivity. Qed.

(** * More about the methods of [Organism] *)

Lemma half_bounds (v : Z) : 0 <= v -> 0 <= v / 2 <= v.
Proof.
  intros Hv. split.
  - apply Z.div_pos; lia.
  - apply Z.div_le_upper_bound; lia.
Qed.

Lemma add64_assoc (x y z : vitality_t) :
  add64 (add64 x y) z = add64 x (add64 y z).
Proof.
  unfold add64.
  rewrite Z.add_mod_idemp_l, Z.add_mod_idemp_r by (unfold two64; lia).
  now rewrite Z.add_assoc.
Qed.

Section MoreMethods.

Context {species_t : Type} `{EqualityComparable species_t}.

(** X1.  Every organism is of exactly one of the four kinds: carnivore,
    omnivore, herbivore or plant. *)
Theorem kinds_partition (m p : bool) (this : Organism species_t m p) :
  is_carnivore this || is_omnivore this || is_herbivore this || is_plant this
  = true
  /\ is_carnivore this && is_omnivore this = false
  /\ is_carnivore this && is_herbivore this = false
  /\ is_carnivore this && is_plant this = false
  /\ is_omnivore this && is_herbivore this = false
  /\ is_omnivore this && is_plant this = false
  /\ is_herbivore this && is_plant this = false.
Proof.
  unfold is_carnivore, is_omnivore, is_herbivore, is_plant.
  destruct m, p; repeat split.
Qed.

(** X2.  What each kind eats, whatever the vitalities and species: a
    carnivore eats exactly the organisms that are not plants (other
    carnivores too), a herbivore exactly the plants, an omnivore everything
    and a plant nothing. *)
Theorem can_eat_by_kind (m p x y : bool)
  (this : Organism species_t m p) (that : Organism species_t x y) :
  (is_carnivore this = true -> can_eat this that = negb (is_plant that))
  /\ (is_herbivore this = true -> can_eat this that = is_plant that)
  /\ (is_omnivore this = true -> can_eat this that = true)
  /\ (is_plant this = true -> can_eat this that = false).
Proof.
  unfold is_carnivore, is_omnivore, is_herbivore, is_plant, can_eat.
  destruct m, p, x, y; repeat split; intros; try reflexivity;
    discriminate.
Qed.

(** X3.  [are_species_equal] is an equivalence between organisms of any
    diets: reflexive, symmetric and transitive. *)
Theorem are_species_equal_equivalence (m1 p1 m2 p2 m3 p3 : bool)
  (a : Organism species_t m1 p1) (b : Organism species_t m2 p2)
  (c : Organism species_t m3 p3) :
  are_species_equal a a = true
  /\ are_species_equal a b = are_species_equal b a
  /\ (are_species_equal a b = true -> are_species_equal b c = true ->
      are_species_equal a c = true).
Proof.
  split; [|split].
  - apply are_species_equal_true. auto.
  - apply are_species_equal_sym.
  - rewrite !are_species_equal_true.
    intros (Hs & Hm & Hp) (Hs' & Hm' & Hp'). repeat split; congruence.
Qed.

(** X4.  Vitality added in two steps is vitality added in one: the two
    changes add up in [uint64_t], and their order does not matter.  Killing
    forgets what was added; adding 0 to a vitality in range changes
    nothing. *)
Theorem add_vitality_composes (m p : bool) (this : Organism species_t m p)
  (change change' : vitality_t) :
  add_vitality (add_vitality this change) change'
  = add_vitality this (add64 change change')
  /\ add_vitality (add_vitality this change) change'
     = add_vitality (add_vitality this change') change
  /\ kill (add_vitality this change) = kill this
  /\ (well_formed this -> add_vitality this 0 = this).
Proof.
  unfold add_vitality, kill, set_vitality. cbn [get_species get_vitality].
  split; [|split; [|split]].
  - f_equal. apply add64_assoc.
  - f_equal. rewrite !add64_assoc. f_equal. apply add64_comm.
  - reflexivity.
  - unfold well_formed. intros Hthis. destruct this as [s v].
    cbn [get_species get_vitality] in *. f_equal.
    unfold add64. rewrite Z.add_0_r. now apply Z.mod_small.
Qed.

End MoreMethods.

(** * More about [encounter] *)

Section MoreEncounter.

Context {species_t : Type} `{EqualityComparable species_t}.

(** Whatever rule decides, either both organisms come back as they were or
    one of them comes back dead and there is no offspring. *)
Lemma encounter_inv (m1 p1 m2 p2 : bool)
  (a a' : Organism species_t m1 p1) (b b' : Organism species_t m2 p2)
  (child : option (Organism species_t m1 p1)) :
  encounter a b = Ok (a', b', child) ->
  is_plant a && is_plant b = false
  /\ ((a' = a /\ b' = b)
      \/ (child = None /\ is_dead a' || is_dead b' = true)).
Proof.
  intros Hcall.
  assert (Hassert : is_plant a && is_plant b = false).
  { destruct (is_plant a && is_plant b) eqn:Hplants; trivial.
    apply encounter_rejected in Hplants. congruence. }
  split; [exact Hassert|].
  rewrite (encounter_resolve a b Hassert) in Hcall. revert Hcall.
  open_encounter. split_guards; order_facts;
    intros Hcall; inversion Hcall; subst a' b' child;
    try (left; split; reflexivity);
    right; (split; [reflexivity|]);
    unfold is_dead, kill, set_vitality; cbn [get_vitality];
    rewrite ?orb_true_r; try reflexivity; lia.
Qed.

(** X5.  Two organisms, not both plants and not of the same species,
    neither of which can eat the other (two herbivores, or a carnivore and a
    plant) leave an encounter as they came, without offspring. *)
Theorem encounter_mutual_inability (m1 p1 m2 p2 : bool)
  (a : Organism species_t m1 p1) (b : Organism species_t m2 p2) :
  is_plant a && is_plant b = false ->
  can_eat a b = false -> can_eat b a = false ->
  are_species_equal a b = false ->
  encounter a b = Ok (a, b, None)
  /\ (is_dead a || is_dead b = false -> fired_rule a b = MutualInability).
Proof.
  intros Hassert Hab Hba Hspecies.
  rewrite (encounter_resolve a b Hassert). open_encounter.
  rewrite Hspecies, Hab, Hba. cbn [negb andb].
  destruct (is_dead a || is_dead b); split; intros; try reflexivity;
    discriminate.
Qed.

(** X6.  [encounter] never changes a species: each returned organism has
    the species it came with, and an offspring has the species of the first
    organism. *)
Theorem encounter_preserves_species (m1 p1 m2 p2 : bool)
  (a a' : Organism species_t m1 p1) (b b' : Organism species_t m2 p2)
  (child : option (Organism species_t m1 p1)) :
  encounter a b = Ok (a', b', child) ->
  get_species a' = get_species a
  /\ get_species b' = get_species b
  /\ (forall c, child = Some c ->
        get_species c = get_species a /\ get_species c = get_species b).
Proof.
  unfold encounter. destruct (negb _); [discriminate|].
  open_encounter. split_guards;
    intros Hcall; inversion Hcall; subst a' b' child;
    (split; [reflexivity | split; [reflexivity|]]);
    intros c Hc; inversion Hc; subst c; cbn [get_species].
  split; [reflexivity|].
  match goal with
  | E : are_species_equal a b = true |- _ =>
      apply are_species_equal_true in E; tauto
  end.
Qed.

(** X7.  An encounter has an offspring exactly when both organisms are
    alive and of the same species; both parents then come back as they
    were. *)
Theorem encounter_offspring_iff (m1 p1 m2 p2 : bool)
  (a a' : Organism species_t m1 p1) (b b' : Organism species_t m2 p2)
  (child : option (Organism species_t m1 p1)) :
  encounter a b = Ok (a', b', child) ->
  (child <> None <->
   is_dead a = false /\ is_dead b = false /\ are_species_equal a b = true)
  /\ (child <> None -> a' = a /\ b' = b).
Proof.
  unfold encounter. destruct (negb _); [discriminate|].
  open_encounter.
  destruct (is_dead a) eqn:Ha, (is_dead b) eqn:Hb; cbn [orb];
    split_guards; intros Hcall; inversion Hcall; subst a' b' child;
    (split; [split|]);
    try (intros Hchild; congruence);
    try (intros (Hda & Hdb & Hsame); congruence);
    auto.
Qed.

(** X8.  An encounter settles what there is to settle: when the two
    organisms it returns meet again, they come back unchanged, with the same
    offspring or lack of it. *)
Theorem encounter_settles (m1 p1 m2 p2 : bool)
  (a a' : Organism species_t m1 p1) (b b' : Organism species_t m2 p2)
  (child : option (Organism species_t m1 p1)) :
  encounter a b = Ok (a', b', child) ->
  encounter a' b' = Ok (a', b', child).
Proof.
  intros Hcall.
  destruct (encounter_inv _ _ _ _ a a' b b' child Hcall)
    as [Hassert [[-> ->] | [-> Hdead]]].
  - exact Hcall.
  - assert (Hassert' : is_plant a' && is_plant b' = false) by exact Hassert.
    rewrite (encounter_resolve a' b' Hassert').
    now rewrite (resolve_dead_party a' b' Hdead).
Qed.

(** X9.  An encounter creates no vitality in the two organisms: when their
    vitalities are in range and add up to less than [2^64], the vitalities
    they come back with add up to at most as much. *)
Theorem encounter_creates_no_vitality (m1 p1 m2 p2 : bool)
  (a a' : Organism species_t m1 p1) (b b' : Organism species_t m2 p2)
  (child : option (Organism species_t m1 p1)) :
  well_formed a -> well_formed b ->
  get_vitality a + get_vitality b < two64 ->
  encounter a b = Ok (a', b', child) ->
  0 <= get_vitality a' /\ 0 <= get_vitality b'
  /\ get_vitality a' + get_vitality b' <= get_vitality a + get_vitality b.
Proof.
  unfold well_formed, is_uint64. intros Ha Hb Hsum.
  pose proof (half_bounds (get_vitality a) (proj1 Ha)) as Hhalfa.
  pose proof (half_bounds (get_vitality b) (proj1 Hb)) as Hhalfb.
  unfold encounter. destruct (negb _); [discriminate|].
  open_encounter. split_guards; order_facts;
    intros Hcall; inversion Hcall; subst a' b' child;
    unfold add_vitality, kill, set_vitality; cbn [get_vitality];
    rewrite ?add64_exact by (unfold is_uint64; lia);
    lia.
Qed.

(** X10.  When the parents' vitalities are in range and add up to less than
    [2^64], the vitality of their offspring lies between the smaller and the
    larger of the two, and the offspring is alive. *)
Theorem offspring_between_parents (m1 p1 m2 p2 : bool)
  (a a' : Organism species_t m1 p1) (b b' : Organism species_t m2 p2)
  (c : Organism species_t m1 p1) :
  well_formed a -> well_formed b ->
  get_vitality a + get_vitality b < two64 ->
  encounter a b = Ok (a', b', Some c) ->
  Z.min (get_vitality a) (get_vitality b) <= get_vitality c
  /\ get_vitality c <= Z.max (get_vitality a) (get_vitality b)
  /\ is_dead c = false.
Proof.
  unfold well_formed, is_uint64. intros Ha Hb Hsum.
  unfold encounter. destruct (negb _); [discriminate|].
  open_encounter.
  destruct (is_dead a) eqn:Hda, (is_dead b) eqn:Hdb; cbn [orb];
    split_guards; intros Hcall; inversion Hcall; subst a' b' c.
  unfold is_dead in *. cbn [get_vitality].
  apply Z.eqb_neq in Hda, Hdb.
  rewrite add64_exact by (unfold is_uint64; lia).
  assert (Hmin : Z.min (get_vitality a) (get_vitality b)
                 <= (get_vitality a + get_vitality b) / 2).
  { apply Z.div_le_lower_bound; lia. }
  assert (Hmax : (get_vitality a + get_vitality b) / 2
                 <= Z.max (get_vitality a) (get_vitality b)).
  { apply Z.div_le_upper_bound; lia. }
  repeat split; try assumption.
  apply Z.eqb_neq. lia.
Qed.

(** X11.  The rules for eating in one direction decide only calls in which
    the eating goes in one direction: both organisms are then living animals
    and the eaten one cannot eat back, although the guards of these two
    rules do not say so. *)
Theorem one_way_rules_are_one_way (m1 p1 m2 p2 : bool)
  (a : Organism species_t m1 p1) (b : Organism species_t m2 p2) :
  (fired_rule a b = FirstEatsSecond ->
   can_eat a b = true /\ can_eat b a = false
   /\ is_plant a = false /\ is_plant b = false
   /\ is_dead a = false /\ is_dead b = false)
  /\ (fired_rule a b = SecondEatsFirst ->
      can_eat b a = true /\ can_eat a b = false
      /\ is_plant a = false /\ is_plant b = false
      /\ is_dead a = false /\ is_dead b = false).
Proof.
  open_encounter.
  destruct (is_dead a), (is_dead b); cbn [orb fst];
    try (split; discriminate).
  destruct (are_species_equal a b); cbn [fst]; try (split; discriminate).
  unfold can_eat, is_plant.
  destruct m1, p1, m2, p2; cbn [negb andb orb fst];
    split; intros Hrule; try discriminate Hrule; repeat split.
Qed.

End MoreEncounter.

(** * More about [encounter_series] *)

Section MoreSeries.

Context {species_t : Type} `{EqualityComparable species_t}.

(** No call of [encounter] reaches the final [throw], whatever the diets. *)
Lemma encounter_not_thrown (m1 p1 m2 p2 : bool)
  (a : Organism species_t m1 p1) (b : Organism species_t m2 p2) what :
  encounter a b <> LogicError what.
Proof.
  destruct (is_plant a && is_plant b) eqn:Hplants.
  - apply encounter_rejected in Hplants. congruence.
  - rewrite (encounter_resolve a b Hplants). revert Hplants. open_encounter.
    destruct m1, p1, m2, p2; fix_diets; intros Hab; try discriminate Hab;
      split_guards; fix_diets; discriminate.
Qed.

(** The first organism keeps its species in an encounter. *)
Lemma encounter_first_species (m1 p1 m2 p2 : bool)
  (a : Organism species_t m1 p1) (b : Organism species_t m2 p2) t :
  encounter a b = Ok t -> get_species (get0 t) = get_species a.
Proof.
  unfold encounter. destruct (negb _); [discriminate|].
  open_encounter. split_guards;
    intros Hcall; inversion Hcall; subst t; reflexivity.
Qed.

(** A plant in first position comes back as it was, or killed. *)
Lemma encounter_first_plant (m2 p2 : bool)
  (a : Plant species_t) (b : Organism species_t m2 p2) t :
  encounter a b = Ok t -> get0 t = a \/ get0 t = kill a.
Proof.
  unfold encounter. destruct (negb _); [discriminate|].
  open_encounter. destruct m2, p2; fix_diets; split_guards;
    intros Hcall; inversion Hcall; subst t; cbn [get0 fst]; auto.
Qed.

(** X12.  A series over two lists of organisms, one after the other, is the
    series over the first list followed by the series of its result over
    the second. *)
Theorem encounter_series_app (m p : bool) (x : Organism species_t m p)
  (args args' : list (Arg species_t)) :
  encounter_series x (args ++ args')
  = (y <- encounter_series x args ;; encounter_series y args').
Proof.
  revert x. induction args as [|[m2 p2 organism2] args IH]; intros x.
  - reflexivity.
  - rewrite <- app_comm_cons, !encounter_series_cons.
    destruct (encounter x organism2) as [t| |what]; cbn [bind].
    + apply IH.
    + reflexivity.
    + reflexivity.
Qed.

(** X13.  [encounter_series] never throws, and it is rejected by a
    [static_assert] exactly when the first organism is a plant and so is one
    of the others. *)
Theorem encounter_series_never_throws (m p : bool)
  (x : Organism species_t m p) (args : list (Arg species_t)) :
  (forall what, encounter_series x args <> LogicError what)
  /\ (encounter_series x args = StaticAssertFailed <->
      is_plant x = true /\ existsb arg_is_plant args = true).
Proof.
  revert x. induction args as [|[m2 p2 organism2] args IH]; intros x.
  - split; [discriminate|]. cbn [existsb]. split.
    + discriminate.
    + intros [_ Habsurd]. discriminate Habsurd.
  - rewrite encounter_series_cons. cbn [existsb arg_is_plant].
    destruct (encounter x organism2) as [t| |what] eqn:Hcall; cbn [bind].
    + destruct (IH (get0 t)) as [IHthrow IHassert].
      split; [exact IHthrow|]. rewrite IHassert.
      assert (Hplants : is_plant x && is_plant organism2 = false).
      { destruct (is_plant x && is_plant organism2) eqn:Hplants; trivial.
        apply encounter_rejected in Hplants. congruence. }
      change (is_plant (get0 t)) with (is_plant x).
      destruct (is_plant x), (is_plant organism2); cbn [orb andb] in *;
        try discriminate Hplants; intuition discriminate.
    + apply encounter_rejected in Hcall.
      apply andb_true_iff in Hcall as [-> ->].
      split; [discriminate|]. split; auto.
    + exfalso. exact (encounter_not_thrown _ _ _ _ _ _ _ Hcall).
Qed.

(** X14.  The organism a series returns has the species of the first
    organism (and, by its type, its diet). *)
Theorem encounter_series_preserves_species (m p : bool)
  (x y : Organism species_t m p) (args : list (Arg species_t)) :
  encounter_series x args = Ok y -> get_species y = get_species x.
Proof.
  revert x. induction args as [|[m2 p2 organism2] args IH]; intros x.
  - intros Hcall. inversion Hcall. reflexivity.
  - rewrite encounter_series_cons.
    destruct (encounter x organism2) as [t| |what] eqn:Hcall; cbn [bind];
      try discriminate.
    intros Hrest. rewrite (IH _ Hrest).
    exact (encounter_first_species _ _ _ _ _ _ _ Hcall).
Qed.

(** X15.  A plant gains nothing from a series of encounters: it comes back
    as it was, or killed. *)
Theorem plant_never_gains (x y : Plant species_t)
  (args : list (Arg species_t)) :
  encounter_series x args = Ok y -> y = x \/ y = kill x.
Proof.
  revert x. induction args as [|[m2 p2 organism2] args IH]; intros x.
  - intros Hcall. inversion Hcall. auto.
  - rewrite encounter_series_cons.
    destruct (encounter x organism2) as [t| |what] eqn:Hcall; cbn [bind];
      try discriminate.
    intros Hrest.
    destruct (encounter_first_plant _ _ _ _ _ Hcall) as [Ht | Ht];
      rewrite Ht in Hrest; destruct (IH _ Hrest) as [-> | ->]; auto.
Qed.

(** X16.  Grazing: a living organism that eats plants and meets a list of
    plants ends with its own vitality plus that of all the plants, provided
    the vitalities are in range and this total is below [2^64]. *)
Theorem grazing (m : bool) (x : Organism species_t m true)
  (plants : list (Plant species_t)) :
  is_dead x = false ->
  well_formed x ->
  Forall well_formed plants ->
  get_vitality x + total_vitality plants < two64 ->
  encounter_series x (meadow plants)
  = Ok (set_vitality x (get_vitality x + total_vitality plants)).
Proof.
  revert x. induction plants as [|plant plants IH];
    intros x Halive Hx Hplants Htotal.
  - cbn [meadow map total_vitality fold_right encounter_series].
    rewrite Z.add_0_r. destruct x; reflexivity.
  - inversion Hplants as [|? ? Hplant Hrest]; subst.
    assert (Hsum : 0 <= total_vitality plants).
    { clear - Hrest. induction Hrest as [|q qs Hq _ IHqs].
      - cbn. lia.
      - cbn [total_vitality fold_right]. unfold well_formed, is_uint64 in Hq.
        unfold total_vitality in IHqs. lia. }
    change (total_vitality (plant :: plants))
      with (get_vitality plant + total_vitality plants) in *.
    unfold well_formed, is_uint64 in Hx, Hplant.
    assert (Hpositive : 0 < get_vitality x).
    { unfold is_dead in Halive. apply Z.eqb_neq in Halive. lia. }
    change (meadow (plant :: plants)) with (arg plant :: meadow plants).
    rewrite encounter_series_cons.
    assert (Hcall : encounter x plant
                    = Ok (add_vitality x (get_vitality plant),
                          kill plant, None)
                      \/ (get_vitality plant = 0
                          /\ encounter x plant = Ok (x, plant, None))).
    { unfold encounter. open_encounter. fix_diets.
      rewrite Halive. cbn [orb]. unfold is_dead.
      destruct (get_vitality plant =? 0) eqn:Hdead; cbn [fst snd].
      - right. apply Z.eqb_eq in Hdead. auto.
      - left. destruct m; reflexivity. }
    destruct Hcall as [-> | [Hzero ->]]; cbn [bind get0 fst];
      rewrite IH; trivial;
      unfold is_dead, well_formed, is_uint64, add_vitality, set_vitality;
      cbn [get_species get_vitality];
      rewrite ?add64_exact by (unfold is_uint64; lia);
      rewrite ?Z.add_assoc, ?Hzero, ?Z.add_0_r;
      try reflexivity; try apply Z.eqb_neq; lia.
Qed.

(** X17.  Once the first organism has died in a series, whatever follows
    changes nothing: the series returns it as it died. *)
Theorem encounter_series_after_death (m p : bool)
  (x y : Organism species_t m p) (args args' : list (Arg species_t)) :
  encounter_series x args = Ok y ->
  is_dead y = true ->
  series_compiles x args' = true ->
  encounter_series x (args ++ args') = Ok y.
Proof.
  intros Hcall Hdead Hcompiles.
  assert (Hrest : forall rest, series_compiles y rest = true ->
                    encounter_series y rest = Ok y).
  { induction rest as [|[m2 p2 organism2] rest IH]; intros Hc.
    - reflexivity.
    - apply series_compiles_cons in Hc as [Hassert Hc].
      rewrite encounter_series_cons, (encounter_resolve _ _ Hassert).
      rewrite resolve_dead_party by now rewrite Hdead.
      cbn [bind snd get0 fst]. exact (IH Hc). }
  revert x Hcall Hcompiles.
  induction args as [|[m2 p2 organism2] args IH]; intros x Hcall Hcompiles.
  - inversion Hcall; subst y. apply Hrest. exact Hcompiles.
  - rewrite <- app_comm_cons, encounter_series_cons.
    rewrite encounter_series_cons in Hcall.
    destruct (encounter x organism2) as [t| |what]; cbn [bind] in *;
      try discriminate.
    apply IH; trivial.
Qed.

End MoreSeries.

(** * The further properties at concrete organisms *)

Ltac in_range := unfold well_formed, is_uint64; split; by_computation.

Ltac premises :=
  repeat (split; [first [assumption | reflexivity]|]);
  first [assumption | reflexivity].

(** X5 at a zebra and a gazelle. *)
Lemma encounter_mutual_inability_zebra_gazelle :
  (is_plant zebra && is_plant gazelle = false
   /\ can_eat zebra gazelle = false /\ can_eat gazelle zebra = false
   /\ are_species_equal zebra gazelle = false)
  /\ encounter zebra gazelle = Ok (zebra, gazelle, None)
  /\ (is_dead zebra || is_dead gazelle = false ->
      fired_rule zebra gazelle = MutualInability).
Proof.
  split; [repeat split; reflexivity|].
  apply (encounter_mutual_inability _ _ _ _ zebra gazelle); reflexivity.
Defined.

(** X6 at a lion and a lioness. *)
Lemma encounter_preserves_species_lion_lioness :
  encounter lion lioness
  = Ok (lion, lioness, Some (mkOrganism "Panthera leo"%string 296))
  /\ get_species lion = get_species lion
  /\ get_species lioness = get_species lioness
  /\ (forall c : Carnivore string,
        Some (mkOrganism "Panthera leo"%string 296) = Some c ->
        get_species c = get_species lion
        /\ get_species c = get_species lioness).
Proof.
  split; [reflexivity|].
  apply (encounter_preserves_species _ _ _ _ lion lion lioness lioness).
  reflexivity.
Defined.

(** X7 at a lion and a lioness. *)
Lemma encounter_offspring_iff_lion_lioness :
  encounter lion lioness
  = Ok (lion, lioness, Some (mkOrganism "Panthera leo"%string 296))
  /\ (Some (mkOrganism "Panthera leo"%string 296 : Carnivore string) <> None
      <-> is_dead lion = false /\ is_dead lioness = false
          /\ are_species_equal lion lioness = true)
  /\ (Some (mkOrganism "Panthera leo"%string 296 : Carnivore string) <> None
      -> lion = lion /\ lioness = lioness).
Proof.
  split; [reflexivity|].
  apply (encounter_offspring_iff _ _ _ _ lion lion lioness lioness).
  reflexivity.
Defined.

(** X8 at a lion and a gazelle. *)
Lemma encounter_settles_lion_gazelle :
  encounter lion gazelle = Ok (add_vitality lion 65, kill gazelle, None)
  /\ encounter (add_vitality lion 65) (kill gazelle)
     = Ok (add_vitality lion 65, kill gazelle, None).
Proof.
  split; [reflexivity|].
  apply (encounter_settles _ _ _ _ lion (add_vitality lion 65)
           gazelle (kill gazelle) None).
  reflexivity.
Defined.

(** X9 at a lion and a hyena. *)
Lemma encounter_creates_no_vitality_lion_hyena :
  (well_formed lion /\ well_formed hyena
   /\ get_vitality lion + get_vitality hyena < two64
   /\ encounter lion hyena = Ok (add_vitality lion 20, kill hyena, None))
  /\ 0 <= get_vitality (add_vitality lion 20)
  /\ 0 <= get_vitality (kill hyena)
  /\ get_vitality (add_vitality lion 20) + get_vitality (kill hyena)
     <= get_vitality lion + get_vitality hyena.
Proof.
  assert (Hlion : well_formed lion) by in_range.
  assert (Hhyena : well_formed hyena) by in_range.
  assert (Hsum : get_vitality lion + get_vitality hyena < two64)
    by reflexivity.
  split; [premises|].
  apply (encounter_creates_no_vitality _ _ _ _
           lion (add_vitality lion 20) hyena (kill hyena) None);
    first [assumption | reflexivity].
Defined.

(** X10 at a lion and a lioness. *)
Lemma offspring_between_parents_lion_lioness :
  (well_formed lion /\ well_formed lioness
   /\ get_vitality lion + get_vitality lioness < two64
   /\ encounter lion lioness
      = Ok (lion, lioness, Some (mkOrganism "Panthera leo"%string 296)))
  /\ Z.min (get_vitality lion) (get_vitality lioness) <= 296
  /\ 296 <= Z.max (get_vitality lion) (get_vitality lioness)
  /\ is_dead (mkOrganism "Panthera leo"%string 296 : Carnivore string)
     = false.
Proof.
  assert (Hlion : well_formed lion) by in_range.
  assert (Hlioness : well_formed lioness) by in_range.
  assert (Hsum : get_vitality lion + get_vitality lioness < two64)
    by reflexivity.
  split; [premises|].
  apply (offspring_between_parents _ _ _ _ lion lion lioness lioness
           (mkOrganism "Panthera leo"%string 296));
    first [assumption | reflexivity].
Defined.

(** X14 at a lion meeting a gazelle, grass and a hyena. *)
Lemma encounter_series_preserves_species_lion :
  encounter_series lion [arg gazelle; arg grass; arg hyena]
  = Ok (mkOrganism "Panthera leo"%string 547)
  /\ get_species (mkOrganism "Panthera leo"%string 547 : Carnivore string)
     = get_species lion.
Proof.
  split; [reflexivity|].
  apply (encounter_series_preserves_species _ _ lion _
           [arg gazelle; arg grass; arg hyena]).
  reflexivity.
Defined.

(** X15 at grass meeting a lion and a gazelle. *)
Lemma plant_never_gains_grass :
  encounter_series grass [arg lion; arg gazelle] = Ok (kill grass)
  /\ (kill grass = grass \/ kill grass = kill grass).
Proof.
  split; [reflexivity|].
  apply (plant_never_gains grass (kill grass) [arg lion; arg gazelle]).
  reflexivity.
Defined.

(** X16 at a zebra on a meadow of grass, hay and clover. *)
Lemma grazing_zebra :
  (is_dead zebra = false /\ well_formed zebra
   /\ Forall well_formed [grass; hay; clover]
   /\ get_vitality zebra + total_vitality [grass; hay; clover] < two64)
  /\ encounter_series zebra (meadow [grass; hay; clover])
     = Ok (set_vitality zebra
             (get_vitality zebra + total_vitality [grass; hay; clover])).
Proof.
  assert (Hzebra : well_formed zebra) by in_range.
  assert (Hplants : Forall well_formed [grass; hay; clover]).
  { repeat (apply Forall_cons; [in_range|]). apply Forall_nil. }
  assert (Hsum : get_vitality zebra + total_vitality [grass; hay; clover]
                 < two64) by reflexivity.
  split; [premises|].
  apply (grazing _ zebra [grass; hay; clover]);
    first [assumption | reflexivity].
Defined.

(** X17 at a gazelle that meets a lion and then grass. *)
Lemma encounter_series_after_death_gazelle :
  (encounter_series gazelle [arg lion] = Ok (kill gazelle)
   /\ is_dead (kill gazelle) = true
   /\ series_compiles gazelle [arg grass] = true)
  /\ encounter_series gazelle ([arg lion] ++ [arg grass]) = Ok (kill gazelle).
Proof.
  split; [repeat split; reflexivity|].
  apply (encounter_series_after_death _ _ gazelle (kill gazelle));
    reflexivity.
Defined.
